(** * SpeakSmart-AI: the two browser front ends, [static/script.js] and
    [static/app.js]

    Both files are event-driven: the page installs handlers, and the browser
    later calls them (button clicks, recognition results, recorder events,
    settled promises).  Each handler is embedded as a function from the
    program state to the state after it, together with the calls it made on
    the outside world, in order.  What the browser does between two handlers
    is the environment; it is kept as small as the handlers need it (the
    recognition engine's started flag, the state of each MediaRecorder, the
    set of promises still pending). *)

From Stdlib Require Import List NArith Bool Arith Lia.
From Stdlib Require String Ascii.
Import ListNotations String.StringSyntax.
Delimit Scope string_scope with string.

Set Implicit Arguments.

(** ** JavaScript strings *)

Module Js.

(** A JavaScript string is a sequence of UTF-16 code units. *)
Definition JsString := list N.

(** An ASCII literal of the source. *)
Definition lit (s : String.string) : JsString :=
  map Ascii.N_of_ascii (String.list_ascii_of_string s).
Arguments lit s%_string.

(** WhiteSpace and LineTerminator of ECMAScript, what [trim] strips. *)
Definition is_white_space (c : N) : bool :=
  ((9 <=? c) && (c <=? 13)            (* TAB LF VT FF CR *)
   || (c =? 32)                       (* SPACE *)
   || (c =? 160)                      (* NO-BREAK SPACE *)
   || (c =? 5760)                     (* U+1680 *)
   || ((8192 <=? c) && (c <=? 8202))  (* U+2000 .. U+200A *)
   || (c =? 8232) || (c =? 8233)      (* U+2028 U+2029 *)
   || (c =? 8239) || (c =? 8287)      (* U+202F U+205F *)
   || (c =? 12288)                    (* U+3000 *)
   || (c =? 65279))%N.                (* U+FEFF *)

Fixpoint trimStart (s : JsString) : JsString :=
  match s with
  | [] => []
  | c :: s' => if is_white_space c then trimStart s' else s
  end.

Definition trimEnd (s : JsString) : JsString := rev (trimStart (rev s)).

(** [String.prototype.trim] *)
Definition trim (s : JsString) : JsString := trimEnd (trimStart s).

(** [a || b] on strings: the empty string is the only falsy one. *)
Definition or_else (a b : JsString) : JsString :=
  match a with
  | [] => b
  | _ :: _ => a
  end.

(** [String(undefined)], what a DOM text setter shows for a missing
    property. *)
Definition undefined_text : JsString := lit "undefined".

(** Errors a handler can end with. *)
Inductive Error := TypeError | InvalidStateError | Rejected.

Inductive Completion := Normal | Throw (e : Error).

(** [for (let i = start; i < xs.length; i++) acc = body(acc, xs[i])];
    [n] counts the iterations left. *)
Section ForLoop.
Variables (A St : Type) (body : St -> A -> St).

Fixpoint for_from (n i : nat) (xs : list A) (acc : St) : St :=
  match n with
  | 0 => acc
  | S n' =>
      match nth_error xs i with
      | Some x => for_from n' (S i) xs (body acc x)
      | None => acc
      end
  end.

Definition for_loop (start : nat) (xs : list A) (acc : St) : St :=
  for_from (length xs - start) start xs acc.
End ForLoop.

(** How a [fetch(...)] followed by [response.json()] can settle. *)
Inductive Settlement (A : Type) :=
| NetworkError             (* fetch rejects *)
| BodyNotJson              (* response.json() rejects *)
| Json (data : A).
Arguments NetworkError {A}.
Arguments BodyNotJson {A}.

Definition failed {A} (o : Settlement A) : bool :=
  match o with
  | Json _ => false
  | _ => true
  end.

End Js.
Import Js.

(** ** The Web Speech API objects the handlers read *)

Module WebSpeech.

Record SpeechRecognitionAlternative := { transcript : JsString }.

(** A result always carries its best alternative, [result[0]]. *)
Record SpeechRecognitionResult := {
  isFinal : bool;
  item0 : SpeechRecognitionAlternative;
  alternatives : list SpeechRecognitionAlternative
}.

Record SpeechRecognitionEvent := {
  resultIndex : nat;
  results : list SpeechRecognitionResult
}.

(** The configuration both files give the recognition object. *)
Record SpeechRecognition := {
  continuous : bool;
  interimResults : bool;
  lang : option JsString
}.

Definition final (t : String.string) : SpeechRecognitionResult :=
  {| isFinal := true; item0 := {| transcript := lit t |}; alternatives := [] |}.
Definition interim (t : String.string) : SpeechRecognitionResult :=
  {| isFinal := false; item0 := {| transcript := lit t |}; alternatives := [] |}.
Arguments final t%_string.
Arguments interim t%_string.

End WebSpeech.
Import WebSpeech.

(** ** static/script.js *)

Module Script.

(** The three elements the script writes, looked up by id. *)
Record Dom := {
  original : JsString;      (* #original.innerText *)
  corrected : JsString;     (* #corrected.innerHTML *)
  confidence : JsString     (* #confidence.innerText *)
}.

(** Body of POST /process_text and the JSON that answers it. *)
Record ProcessTextData := {
  highlighted : JsString;
  data_confidence : option JsString   (* its text; [None] when absent *)
}.

Record State := {
  recognition : option SpeechRecognition;   (* [let recognition] *)
  recognizing : bool;                       (* [let recognizing = false] *)
  dom : Dom;
  (* the browser's side *)
  started : bool;                           (* the engine's started flag *)
  inflight : list (nat * JsString);         (* pending fetches, by issue order *)
  issued : nat                              (* how many fetches so far *)
}.

Inductive Call :=
| Alert (msg : JsString)
| RecognitionStart
| RecognitionStop
| Fetch (url : JsString) (text : JsString).   (* body {text} *)

Record Run := {
  after : State;
  calls : list Call;
  completion : Completion
}.

Definition idle (s : State) : Run :=
  {| after := s; calls := []; completion := Normal |}.

Definition set_dom (d : Dom) (s : State) : State :=
  {| recognition := recognition s; recognizing := recognizing s; dom := d;
     started := started s; inflight := inflight s; issued := issued s |}.

Definition set_recognizing (b : bool) (s : State) : State :=
  {| recognition := recognition s; recognizing := b; dom := dom s;
     started := started s; inflight := inflight s; issued := issued s |}.

Definition set_started (b : bool) (s : State) : State :=
  {| recognition := recognition s; recognizing := recognizing s; dom := dom s;
     started := b; inflight := inflight s; issued := issued s |}.

Definition set_inflight (l : list (nat * JsString)) (s : State) : State :=
  {| recognition := recognition s; recognizing := recognizing s; dom := dom s;
     started := started s; inflight := l; issued := issued s |}.

(** Issuing a fetch: the promise gets the next number of the issue order.
    The number names the promise in this model only; it is neither sent nor
    visible to the continuation. *)
Definition issue (text : JsString) (s : State) : State :=
  {| recognition := recognition s; recognizing := recognizing s; dom := dom s;
     started := started s;
     inflight := inflight s ++ [(S (issued s), text)];
     issued := S (issued s) |}.

(** Lines 1-10: what loading the script does; [capable] is
    ["webkitSpeechRecognition" in window].  The two click handlers of lines
    41-53 are installed in both cases. *)
Definition load (capable : bool) (page : Dom) : Run :=
  let s := {| recognition := None; recognizing := false; dom := page;
              started := false; inflight := []; issued := 0 |} in
  if negb capable then
    {| after := s;
       calls := [Alert (lit "Your browser does not support Speech Recognition.")];
       completion := Normal |}
  else
    {| after :=
         {| recognition := Some {| continuous := true; interimResults := true;
                                   lang := Some (lit "en-US") |};
            recognizing := false; dom := page;
            started := false; inflight := []; issued := 0 |};
       calls := [];
       completion := Normal |}.

(** Lines 17-21: one turn of the loop on [(interim_transcript,
    final_transcript)]. *)
Definition accumulate (acc : JsString * JsString) (r : SpeechRecognitionResult)
  : JsString * JsString :=
  let (interim_transcript, final_transcript) := acc in
  if isFinal r then (interim_transcript, final_transcript ++ transcript (item0 r))
  else (interim_transcript ++ transcript (item0 r), final_transcript).

(** Lines 13-22: the loop, from [event.resultIndex] on. *)
Definition transcripts (event : SpeechRecognitionEvent) : JsString * JsString :=
  for_loop accumulate (resultIndex event) (results event) ([], []).

(** Line 24 *)
Definition display_text (event : SpeechRecognitionEvent) : JsString :=
  let (interim_transcript, final_transcript) := transcripts event in
  or_else final_transcript interim_transcript.

(** Lines 12-32: [recognition.onresult], up to the fetch. *)
Definition onresult (event : SpeechRecognitionEvent) (s : State) : Run :=
  let text := display_text event in
  let d := dom s in
  let s1 := set_dom {| original := text; corrected := corrected d;
                       confidence := confidence d |} s in
  {| after := issue text s1;
     calls := [Fetch (lit "/process_text") text];
     completion := Normal |}.

(** Lines 33-37: the [then] chain, run when the fetch settles.  There is no
    [catch]: a rejection reaches no handler. *)
Definition process_text_settled (o : Settlement ProcessTextData) (s : State) : Run :=
  match o with
  | Json data =>
      {| after :=
           set_dom {| original := original (dom s);
                      corrected := highlighted data;
                      confidence :=
                        match data_confidence data with
                        | Some c => c
                        | None => undefined_text
                        end |} s;
         calls := [];
         completion := Normal |}
  | _ => {| after := s; calls := []; completion := Throw Rejected |}
  end.

(** Lines 41-46 *)
Definition startBtn_onclick (s : State) : Run :=
  if negb (recognizing s) then
    match recognition s with
    | None => {| after := s; calls := []; completion := Throw TypeError |}
    | Some _ =>
        if started s then
          (* start() on an engine that has not ended yet throws *)
          {| after := s; calls := [RecognitionStart];
             completion := Throw InvalidStateError |}
        else
          {| after := set_recognizing true (set_started true s);
             calls := [RecognitionStart];
             completion := Normal |}
    end
  else idle s.

(** Lines 48-53 *)
Definition stopBtn_onclick (s : State) : Run :=
  if recognizing s then
    match recognition s with
    | None => {| after := s; calls := []; completion := Throw TypeError |}
    | Some _ =>
        {| after := set_recognizing false s;
           calls := [RecognitionStop];
           completion := Normal |}
    end
  else idle s.

(** What the browser can deliver. *)
Inductive Event :=
| StartClick
| StopClick
| Result (event : SpeechRecognitionEvent)
| RecognitionEnded                         (* the engine's end event *)
| Settled (h : nat) (o : Settlement ProcessTextData).

Definition pending (h : nat) (s : State) : bool :=
  existsb (fun p => fst p =? h) (inflight s).

Definition enabled (s : State) (e : Event) : bool :=
  match e with
  | StartClick | StopClick => true
  | Result _ =>
      match recognition s with Some _ => started s | None => false end
  | RecognitionEnded => started s
  | Settled h _ => pending h s
  end.

Definition forget (h : nat) (s : State) : State :=
  set_inflight (filter (fun p => negb (fst p =? h)) (inflight s)) s.

Definition dispatch (e : Event) (s : State) : Run :=
  match e with
  | StartClick => startBtn_onclick s
  | StopClick => stopBtn_onclick s
  | Result event => onresult event s
  | RecognitionEnded => idle (set_started false s)   (* no [onend] handler *)
  | Settled h o => process_text_settled o (forget h s)
  end.

Definition step (e : Event) (s : State) : Run :=
  if enabled s e then dispatch e s else idle s.

(** A run of the page: the state reached and every call made, in order. *)
Fixpoint run (s : State) (trace : list Event) : State * list Call :=
  match trace with
  | [] => (s, [])
  | e :: trace' =>
      let r := step e s in
      let (s', cs) := run (after r) trace' in
      (s', calls r ++ cs)
  end.

Fixpoint feasible (s : State) (trace : list Event) : bool :=
  match trace with
  | [] => true
  | e :: trace' => enabled s e && feasible (after (step e s)) trace'
  end.

Definition is_start (c : Call) : bool :=
  match c with RecognitionStart => true | _ => false end.

Definition is_fetch (c : Call) : bool :=
  match c with Fetch _ _ => true | _ => false end.

End Script.

(** ** static/app.js *)

Module App.

(** The two elements the script writes. *)
Record Dom := {
  speechText : JsString;      (* #speechText.textContent *)
  correctedText : JsString    (* #correctedText.textContent *)
}.

(** What the recorder hands to [ondataavailable], and [new Blob(parts,
    {type})]. *)
Definition Chunk := list Byte.byte.

Record Blob := {
  blobParts : list Chunk;
  type : JsString
}.

Inductive Body :=
| JsonText (text : JsString)                                (* {text} *)
| FormData (field : JsString) (blob : Blob) (filename : JsString).

(** JSON answers of /correct and /emotion. *)
Record CorrectData := { data_corrected : JsString }.
Record EmotionData := { emotion : JsString }.

(** A MediaRecorder: [Stopping] is the time between [stop()] and the stop
    event, when the last data is still to be delivered. *)
Inductive RecorderState := Recording | Stopping | Inactive.

Inductive Pending :=
| PendingStream                       (* getUserMedia *)
| PendingCorrect (text : JsString)    (* POST /correct *)
| PendingEmotion (blob : Blob).       (* POST /emotion *)

Record State := {
  recognition : option SpeechRecognition;   (* [let recognition] *)
  mediaRecorder : option nat;               (* [let mediaRecorder]: which recorder *)
  audioChunks : list Chunk;                 (* [let audioChunks = []] *)
  dom : Dom;
  (* the browser's side *)
  started : bool;                           (* the engine's started flag *)
  recorders : list RecorderState;           (* every recorder created so far *)
  inflight : list (nat * Pending);          (* pending promises, by issue order *)
  issued : nat
}.

Inductive Call :=
| Alert (msg : JsString)
| RecognitionStart
| RecognitionStop
| GetUserMedia
| RecorderStart (rid : nat)
| RecorderStop (rid : nat)
| Fetch (url : JsString) (body : Body).

Record Run := {
  after : State;
  calls : list Call;
  completion : Completion
}.

Definition idle (s : State) : Run :=
  {| after := s; calls := []; completion := Normal |}.

Definition set_dom (d : Dom) (s : State) : State :=
  {| recognition := recognition s; mediaRecorder := mediaRecorder s;
     audioChunks := audioChunks s; dom := d; started := started s;
     recorders := recorders s; inflight := inflight s; issued := issued s |}.

Definition set_audioChunks (l : list Chunk) (s : State) : State :=
  {| recognition := recognition s; mediaRecorder := mediaRecorder s;
     audioChunks := l; dom := dom s; started := started s;
     recorders := recorders s; inflight := inflight s; issued := issued s |}.

Definition set_started (b : bool) (s : State) : State :=
  {| recognition := recognition s; mediaRecorder := mediaRecorder s;
     audioChunks := audioChunks s; dom := dom s; started := b;
     recorders := recorders s; inflight := inflight s; issued := issued s |}.

Definition set_recorders (l : list RecorderState) (s : State) : State :=
  {| recognition := recognition s; mediaRecorder := mediaRecorder s;
     audioChunks := audioChunks s; dom := dom s; started := started s;
     recorders := l; inflight := inflight s; issued := issued s |}.

Definition set_inflight (l : list (nat * Pending)) (s : State) : State :=
  {| recognition := recognition s; mediaRecorder := mediaRecorder s;
     audioChunks := audioChunks s; dom := dom s; started := started s;
     recorders := recorders s; inflight := l; issued := issued s |}.

Definition set_correctedText (t : JsString) (s : State) : State :=
  set_dom {| speechText := speechText (dom s); correctedText := t |} s.

Definition set_speechText (t : JsString) (s : State) : State :=
  set_dom {| speechText := t; correctedText := correctedText (dom s) |} s.

(** A suspending call: its promise gets the next number of the issue
    order, a name of this model only. *)
Definition issue (p : Pending) (s : State) : State :=
  {| recognition := recognition s; mediaRecorder := mediaRecorder s;
     audioChunks := audioChunks s; dom := dom s; started := started s;
     recorders := recorders s;
     inflight := inflight s ++ [(S (issued s), p)];
     issued := S (issued s) |}.

Fixpoint update (rid : nat) (r : RecorderState) (l : list RecorderState)
  : list RecorderState :=
  match l, rid with
  | [], _ => []
  | _ :: l', 0 => r :: l'
  | x :: l', S rid' => x :: update rid' r l'
  end.

(** The literals of the file that are not ASCII, as code units. *)
Definition check_mark : JsString := [9989; 32]%N.            (* U+2705, space *)
Definition warning_sign : JsString := [9888; 65039]%N.       (* U+26A0 U+FE0F *)
Definition brain : JsString := [55358; 56800]%N.             (* U+1F9E0 *)
Definition cross_mark : JsString := [10060]%N.               (* U+274C *)
Definition newline : JsString := [10]%N.

Definition grammar_error : JsString :=
  warning_sign ++ lit " Grammar check error.".
Definition emotion_line (e : JsString) : JsString :=
  newline ++ brain ++ lit " Confidence Analysis: " ++ e.
Definition emotion_error : JsString :=
  newline ++ warning_sign ++ lit " Emotion detection failed.".

(** Lines 11-16 and 74-76: what loading the script does; [supported] is
    the truth of [window.SpeechRecognition || window.webkitSpeechRecognition].
    The handlers below exist only when it holds. *)
Definition load (supported : bool) (page : Dom) : Run :=
  let s := {| recognition := None; mediaRecorder := None; audioChunks := [];
              dom := page; started := false; recorders := []; inflight := [];
              issued := 0 |} in
  if supported then
    {| after :=
         {| recognition := Some {| continuous := true; interimResults := true;
                                   lang := None |};
            mediaRecorder := None; audioChunks := []; dom := page;
            started := false; recorders := []; inflight := []; issued := 0 |};
       calls := [];
       completion := Normal |}
  else
    {| after := s;
       calls := [Alert (cross_mark ++
                   lit " Speech Recognition not supported in this browser. Use Chrome.")];
       completion := Normal |}.

(** Lines 18-21 *)
Definition transcript_of (event : SpeechRecognitionEvent) : JsString :=
  for_loop (fun acc r => acc ++ transcript (item0 r))
           (resultIndex event) (results event) [].

(** Lines 17-30: [recognition.onresult], up to the first [await]. *)
Definition onresult (event : SpeechRecognitionEvent) (s : State) : Run :=
  let text := transcript_of event in
  let s1 := set_speechText text s in
  if 0 <? length (trim text) then
    {| after := issue (PendingCorrect text) s1;
       calls := [Fetch (lit "/correct") (JsonText text)];
       completion := Normal |}
  else
    {| after := s1; calls := []; completion := Normal |}.

(** Lines 31-35: the rest of [onresult], run when the fetch settles. *)
Definition correct_settled (o : Settlement CorrectData) (s : State) : Run :=
  match o with
  | Json data =>
      {| after := set_correctedText (check_mark ++ data_corrected data) s;
         calls := []; completion := Normal |}
  | _ =>
      {| after := set_correctedText grammar_error s;
         calls := []; completion := Normal |}
  end.

(** Lines 39-42: [startBtn.onclick], up to [await getUserMedia]. *)
Definition startBtn_onclick (s : State) : Run :=
  if started s then
    (* start() on an engine that has not ended yet throws *)
    {| after := s; calls := [RecognitionStart];
       completion := Throw InvalidStateError |}
  else
    {| after := issue PendingStream (set_started true s);
       calls := [RecognitionStart; GetUserMedia];
       completion := Normal |}.

(** Lines 43-66: the rest of [startBtn.onclick], once the stream is there.
    When the device is refused the promise rejects and nothing runs. *)
Definition stream_settled (granted : bool) (s : State) : Run :=
  if granted then
    let rid := length (recorders s) in
    {| after :=
         {| recognition := recognition s; mediaRecorder := Some rid;
            audioChunks := []; dom := dom s; started := started s;
            recorders := recorders s ++ [Recording];
            inflight := inflight s; issued := issued s |};
       calls := [RecorderStart rid];
       completion := Normal |}
  else
    {| after := s; calls := []; completion := Throw Rejected |}.

(** Lines 46-48 *)
Definition mediaRecorder_ondataavailable (data : Chunk) (s : State) : Run :=
  idle (set_audioChunks (audioChunks s ++ [data]) s).

(** Lines 50-56: [mediaRecorder.onstop], up to the first [await]. *)
Definition mediaRecorder_onstop (s : State) : Run :=
  let blob := {| blobParts := audioChunks s; type := lit "audio/wav" |} in
  {| after := issue (PendingEmotion blob) s;
     calls := [Fetch (lit "/emotion")
                     (FormData (lit "audio") blob (lit "speech.wav"))];
     completion := Normal |}.

(** Lines 57-63: the rest of [onstop], run when the fetch settles. *)
Definition emotion_settled (o : Settlement EmotionData) (s : State) : Run :=
  let line :=
    match o with
    | Json data => emotion_line (emotion data)
    | _ => emotion_error
    end in
  idle (set_audioChunks []
          (set_correctedText (correctedText (dom s) ++ line) s)).

(** Is the recorder held by [mediaRecorder] recording? *)
Definition recording (s : State) : bool :=
  match mediaRecorder s with
  | Some rid =>
      match nth_error (recorders s) rid with
      | Some Recording => true
      | _ => false
      end
  | None => false
  end.

(** Lines 69-72.  [stop()] on a recorder that is not recording returns at
    once; on [undefined] the property access throws. *)
Definition stopBtn_onclick (s : State) : Run :=
  match mediaRecorder s with
  | None =>
      {| after := s; calls := [RecognitionStop]; completion := Throw TypeError |}
  | Some rid =>
      {| after := if recording s
                  then set_recorders (update rid Stopping (recorders s)) s
                  else s;
         calls := [RecognitionStop; RecorderStop rid];
         completion := Normal |}
  end.

Inductive Event :=
| StartClick
| StopClick
| Result (event : SpeechRecognitionEvent)
| RecognitionEnded
| StreamSettled (h : nat) (granted : bool)
| CorrectSettled (h : nat) (o : Settlement CorrectData)
| EmotionSettled (h : nat) (o : Settlement EmotionData)
| DataAvailable (rid : nat) (data : Chunk)
| RecorderStopped (rid : nat).

Definition lookup (h : nat) (s : State) : option Pending :=
  match find (fun p => fst p =? h) (inflight s) with
  | Some p => Some (snd p)
  | None => None
  end.

Definition installed (s : State) : bool :=
  match recognition s with Some _ => true | None => false end.

Definition enabled (s : State) (e : Event) : bool :=
  match e with
  | StartClick | StopClick => installed s
  | Result _ => installed s && started s
  | RecognitionEnded => started s
  | StreamSettled h _ =>
      match lookup h s with Some PendingStream => true | _ => false end
  | CorrectSettled h _ =>
      match lookup h s with Some (PendingCorrect _) => true | _ => false end
  | EmotionSettled h _ =>
      match lookup h s with Some (PendingEmotion _) => true | _ => false end
  | DataAvailable rid _ =>
      match nth_error (recorders s) rid with
      | Some Recording | Some Stopping => true
      | _ => false
      end
  | RecorderStopped rid =>
      match nth_error (recorders s) rid with
      | Some Stopping => true
      | _ => false
      end
  end.

Definition forget (h : nat) (s : State) : State :=
  set_inflight (filter (fun p => negb (fst p =? h)) (inflight s)) s.

Definition dispatch (e : Event) (s : State) : Run :=
  match e with
  | StartClick => startBtn_onclick s
  | StopClick => stopBtn_onclick s
  | Result event => onresult event s
  | RecognitionEnded => idle (set_started false s)
  | StreamSettled h granted => stream_settled granted (forget h s)
  | CorrectSettled h o => correct_settled o (forget h s)
  | EmotionSettled h o => emotion_settled o (forget h s)
  | DataAvailable _ data => mediaRecorder_ondataavailable data s
  | RecorderStopped rid =>
      mediaRecorder_onstop (set_recorders (update rid Inactive (recorders s)) s)
  end.

Definition step (e : Event) (s : State) : Run :=
  if enabled s e then dispatch e s else idle s.

Fixpoint run (s : State) (trace : list Event) : State * list Call :=
  match trace with
  | [] => (s, [])
  | e :: trace' =>
      let r := step e s in
      let (s', cs) := run (after r) trace' in
      (s', calls r ++ cs)
  end.

Fixpoint feasible (s : State) (trace : list Event) : bool :=
  match trace with
  | [] => true
  | e :: trace' => enabled s e && feasible (after (step e s)) trace'
  end.

(** The blobs sent to /emotion, in order. *)
Fixpoint submitted (cs : list Call) : list Blob :=
  match cs with
  | [] => []
  | Fetch _ (FormData _ blob _) :: cs' => blob :: submitted cs'
  | _ :: cs' => submitted cs'
  end.

(** The chunks the recorder [rid] delivered along a trace. *)
Fixpoint delivered (rid : nat) (trace : list Event) : list Chunk :=
  match trace with
  | [] => []
  | DataAvailable r data :: trace' =>
      if r =? rid then data :: delivered rid trace' else delivered rid trace'
  | _ :: trace' => delivered rid trace'
  end.

Definition is_fetch (c : Call) : bool :=
  match c with Fetch _ _ => true | _ => false end.

End App.

(** ** The words of the specification *)

Module Spec.

(** The entries of an event that are in range: indices
    [resultIndex .. results.length - 1]. *)
Definition in_range (event : SpeechRecognitionEvent) : list SpeechRecognitionResult :=
  skipn (resultIndex event) (results event).

Definition best (r : SpeechRecognitionResult) : JsString := transcript (item0 r).

(** In-order concatenation of the final entries in range. *)
Definition finalSegment (event : SpeechRecognitionEvent) : JsString :=
  concat (map best (filter isFinal (in_range event))).

(** In-order concatenation of the entries in range that are not final. *)
Definition interimSegment (event : SpeechRecognitionEvent) : JsString :=
  concat (map best (filter (fun r => negb (isFinal r)) (in_range event))).

(** displayText = finalSegment if non-empty else interimSegment. *)
Definition displayText (event : SpeechRecognitionEvent) : JsString :=
  match finalSegment event with
  | [] => interimSegment event
  | _ :: _ => finalSegment event
  end.

(** A string made of white space only. *)
Definition blank (s : JsString) : Prop := Forall (fun c => is_white_space c = true) s.

(** Does the text [s] show [p] somewhere? *)
Fixpoint starts_with (p s : JsString) : bool :=
  match p, s with
  | [], _ => true
  | _ :: _, [] => false
  | a :: p', b :: s' => (a =? b)%N && starts_with p' s'
  end.

Fixpoint shows (p s : JsString) : bool :=
  starts_with p s ||
  match s with
  | [] => false
  | _ :: s' => shows p s'
  end.

End Spec.

(** ** Inputs the statements below are tried on *)

Module Samples.

Definition hello_wor : SpeechRecognitionEvent :=
  {| resultIndex := 0; results := [final "hello "; interim "wor"] |}.

Definition no_results : SpeechRecognitionEvent :=
  {| resultIndex := 0; results := [] |}.

Definition spaces : SpeechRecognitionEvent :=
  {| resultIndex := 0; results := [interim "  "] |}.

Definition heard (t : String.string) : SpeechRecognitionEvent :=
  {| resultIndex := 0; results := [final t] |}.
Arguments heard t%_string.

(** script.js, loaded in a browser with and without recognition, on a page
    whose three elements are empty. *)
Definition script_page : Script.Dom :=
  {| Script.original := []; Script.corrected := []; Script.confidence := [] |}.
Definition script_ready : Script.State := Script.after (Script.load true script_page).
Definition script_bare : Script.State := Script.after (Script.load false script_page).

Definition answer (t : String.string) : Settlement Script.ProcessTextData :=
  Json {| Script.highlighted := lit t; Script.data_confidence := None |}.
Arguments answer t%_string.

(** Three requests issued in order; the third is answered before the
    second. *)
Definition three_requests : list Script.Event :=
  [Script.StartClick;
   Script.Result (heard "he go");
   Script.Result (heard "he go to");
   Script.Result (heard "he go to school")].
Definition third_then_second : list Script.Event :=
  three_requests ++
  [Script.Settled 3 (answer "he goes to school");
   Script.Settled 2 (answer "he goes to")].

(** app.js, likewise. *)
Definition app_page : App.Dom :=
  {| App.speechText := []; App.correctedText := [] |}.
Definition app_ready : App.State := App.after (App.load true app_page).
Definition app_bare : App.State := App.after (App.load false app_page).

Definition chunk_a : App.Chunk := [Byte.x61].
Definition chunk_b : App.Chunk := [Byte.x62].
Definition chunk_c : App.Chunk := [Byte.x63].

Definition happy : Settlement App.EmotionData :=
  Json {| App.emotion := lit "happy" |}.

(** A second recording is started while the analysis of the first is
    still pending; the analysis answers in the middle of the second
    recording.  Promises: 1 and 3 are the streams, 2 and 4 the analyses. *)
Definition restart_before_analysis : list App.Event :=
  [App.StartClick; App.StreamSettled 1 true;
   App.StopClick; App.DataAvailable 0 chunk_a; App.RecorderStopped 0;
   App.RecognitionEnded;
   App.StartClick; App.StreamSettled 3 true;
   App.DataAvailable 1 chunk_b;
   App.EmotionSettled 2 happy;
   App.StopClick; App.DataAvailable 1 chunk_c; App.RecorderStopped 1].

Definition corrected_to (t : String.string) : Settlement App.CorrectData :=
  Json {| App.data_corrected := lit t |}.
Arguments corrected_to t%_string.

(** A correction request (promise 2) in flight. *)
Definition one_sentence : list App.Event :=
  [App.StartClick; App.StreamSettled 1 true; App.Result (heard "i is fine")].

(** One recording with one sentence; the analysis (promise 3) answers
    before the correction (promise 2). *)
Definition analysis_answered : list App.Event :=
  [App.StartClick; App.StreamSettled 1 true;
   App.Result (heard "i is fine");
   App.StopClick; App.DataAvailable 0 chunk_a; App.RecorderStopped 0;
   App.EmotionSettled 3 happy].

(** More events: an index past the end, a final entry without text before
    an interim one, two interim entries. *)
Definition past_the_end : SpeechRecognitionEvent :=
  {| resultIndex := 3; results := [final "hello "; interim "wor"] |}.

Definition silent_final : SpeechRecognitionEvent :=
  {| resultIndex := 0; results := [final ""; interim "wor"] |}.

Definition two_interims : SpeechRecognitionEvent :=
  {| resultIndex := 0; results := [interim "hel"; interim "lo"] |}.

(** Start clicked three times while a recording goes on. *)
Definition start_thrice : list App.Event :=
  [App.StartClick; App.StreamSettled 1 true; App.StartClick;
   App.DataAvailable 0 chunk_a; App.StartClick].

End Samples.

(** ** Reading a trace *)

Module Trace.

(** The recognition results of a trace, in order, and the last of them. *)
Fixpoint script_results (trace : list Script.Event) : list SpeechRecognitionEvent :=
  match trace with
  | [] => []
  | Script.Result event :: trace' => event :: script_results trace'
  | _ :: trace' => script_results trace'
  end.

Fixpoint app_results (trace : list App.Event) : list SpeechRecognitionEvent :=
  match trace with
  | [] => []
  | App.Result event :: trace' => event :: app_results trace'
  | _ :: trace' => app_results trace'
  end.

(** The answers of /process_text that arrived well-formed, in order of
    arrival. *)
Fixpoint script_answers (trace : list Script.Event) : list Script.ProcessTextData :=
  match trace with
  | [] => []
  | Script.Settled _ (Json data) :: trace' => data :: script_answers trace'
  | _ :: trace' => script_answers trace'
  end.

(** The texts posted to /process_text, and to /correct, in order. *)
Fixpoint script_sent (cs : list Script.Call) : list JsString :=
  match cs with
  | [] => []
  | Script.Fetch _ text :: cs' => text :: script_sent cs'
  | _ :: cs' => script_sent cs'
  end.

Fixpoint app_sent (cs : list App.Call) : list JsString :=
  match cs with
  | [] => []
  | App.Fetch _ (App.JsonText text) :: cs' => text :: app_sent cs'
  | _ :: cs' => app_sent cs'
  end.

(** White space only, as a test. *)
Definition is_blank (s : JsString) : bool := forallb is_white_space s.

(** The stop events of the recorders in a trace. *)
Definition is_stopped (e : App.Event) : bool :=
  match e with App.RecorderStopped _ => true | _ => false end.

(** The streams asked for and not yet answered. *)
Definition is_stream (p : nat * App.Pending) : bool :=
  match snd p with App.PendingStream => true | _ => false end.

Definition pending_streams (s : App.State) : nat :=
  length (filter is_stream (App.inflight s)).

End Trace.

(** ** What a browser's recorder delivers *)

Module Tasks.












End Tasks.

(** ** Loops and strings *)

Section Loops.
Variables (A St : Type) (body : St -> A -> St).

Lemma skipn_nth_error (xs : list A) :
  forall i x, nth_error xs i = Some x -> skipn i xs = x :: skipn (S i) xs.
Proof.
  induction xs as [|y xs IH]; intros [|i] x H; simpl in *; try discriminate.
  - now inversion H.
  - now apply IH.
Qed.

Lemma for_from_fold (xs : list A) :
  forall n i acc, n = length xs - i ->
    for_from body n i xs acc = fold_left body (skipn i xs) acc.
Proof.
  induction n as [|n IH]; intros i acc Hn; simpl.
  - rewrite skipn_all2 by lia. reflexivity.
  - destruct (nth_error xs i) as [x|] eqn:Hx.
    + rewrite (skipn_nth_error _ _ Hx). simpl. apply IH. lia.
    + apply nth_error_None in Hx. lia.
Qed.

(** The counting loop visits exactly the entries from [start] on, in
    order. *)
Lemma for_loop_fold (start : nat) (xs : list A) (acc : St) :
  for_loop body start xs acc = fold_left body (skipn start xs) acc.
Proof. unfold for_loop. now apply for_from_fold. Qed.
End Loops.

Lemma fold_accumulate (l : list SpeechRecognitionResult) :
  forall i f,
    fold_left Script.accumulate l (i, f) =
    (i ++ concat (map Spec.best (filter (fun r => negb (isFinal r)) l)),
     f ++ concat (map Spec.best (filter isFinal l))).
Proof.
  induction l as [|r l IH]; intros i f; cbn [fold_left filter map concat].
  - now rewrite !app_nil_r.
  - change (Script.accumulate (i, f) r)
      with (if isFinal r then (i, f ++ Spec.best r) else (i ++ Spec.best r, f)).
    destruct (isFinal r); cbn [negb filter map concat];
      rewrite IH, <- app_assoc; reflexivity.
Qed.

Lemma fold_append (l : list SpeechRecognitionResult) :
  forall acc,
    fold_left (fun acc r => acc ++ transcript (item0 r)) l acc =
    acc ++ concat (map Spec.best l).
Proof.
  induction l as [|r l IH]; intros acc; simpl.
  - now rewrite app_nil_r.
  - rewrite IH, <- app_assoc. reflexivity.
Qed.

Lemma script_transcripts (event : SpeechRecognitionEvent) :
  Script.transcripts event = (Spec.interimSegment event, Spec.finalSegment event).
Proof.
  unfold Script.transcripts. rewrite for_loop_fold, fold_accumulate. reflexivity.
Qed.

Lemma script_display_text (event : SpeechRecognitionEvent) :
  Script.display_text event = Spec.displayText event.
Proof.
  unfold Script.display_text. rewrite script_transcripts.
  unfold Spec.displayText, or_else. reflexivity.
Qed.

Lemma app_transcript_of (event : SpeechRecognitionEvent) :
  App.transcript_of event = concat (map Spec.best (Spec.in_range event)).
Proof.
  unfold App.transcript_of. rewrite for_loop_fold, fold_append. reflexivity.
Qed.

Lemma concat_nonempty (l : list JsString) (x : JsString) :
  In x l -> x <> [] -> concat l <> [].
Proof.
  induction l as [|y l IH]; simpl; intros Hin Hx; [contradiction|].
  destruct Hin as [->|Hin].
  - destruct x; [congruence|discriminate].
  - intros H. apply app_eq_nil in H. destruct H as [_ H]. now apply IH.
Qed.

(** ** The transcript shown for an event *)

(** C1 (as amended).  In script.js the text shown for an event is the
    in-order concatenation of the final entries from [resultIndex] on when
    that is non-empty, and of the entries that are not final otherwise; so a
    non-empty final entry in range makes the interim ones invisible.  In
    app.js the text shown is the in-order concatenation of every entry from
    [resultIndex] on, final or not. *)
Theorem display_text_of_event (event : SpeechRecognitionEvent) :
  (forall s, Script.original (Script.dom (Script.after (Script.onresult event s)))
             = Spec.displayText event)
  /\ (forall r, In r (Spec.in_range event) -> isFinal r = true ->
                Spec.best r <> [] ->
                Script.display_text event = Spec.finalSegment event)
  /\ (forall s, App.speechText (App.dom (App.after (App.onresult event s)))
                = concat (map Spec.best (Spec.in_range event))).
Proof.
  split; [|split].
  - intros s. simpl. apply script_display_text.
  - intros r Hin Hfin Hne. rewrite script_display_text. unfold Spec.displayText.
    destruct (Spec.finalSegment event) eqn:E; [|reflexivity].
    exfalso. revert E. apply concat_nonempty with (x := Spec.best r); [|exact Hne].
    apply in_map. apply filter_In. now split.
  - intros s. unfold App.onresult.
    destruct (0 <? length (trim (App.transcript_of event))); simpl;
      apply app_transcript_of.
Qed.

Lemma display_text_of_event_witness :
  In (final "hello ") (Spec.in_range Samples.hello_wor)
  /\ isFinal (final "hello ") = true
  /\ Spec.best (final "hello ") <> []
  /\ Script.display_text Samples.hello_wor = Spec.finalSegment Samples.hello_wor.
Proof.
  assert (Hin : In (final "hello ") (Spec.in_range Samples.hello_wor))
    by (left; reflexivity).
  assert (Hne : Spec.best (final "hello ") <> []) by discriminate.
  split; [exact Hin|]. split; [reflexivity|]. split; [exact Hne|].
  exact (proj1 (proj2 (display_text_of_event Samples.hello_wor))
               (final "hello ") Hin eq_refl Hne).
Defined.

(** C1, the claim as written, fails on app.js: with a final "hello " and an
    interim "wor" the page shows "hello wor", not the final segment. *)
Lemma app_shows_interim_after_final :
  ~ (forall event s,
       App.speechText (App.dom (App.after (App.onresult event s)))
       = Spec.displayText event).
Proof.
  intros H.
  specialize (H Samples.hello_wor Samples.app_ready).
  vm_compute in H. discriminate H.
Qed.

(** ** Facts about [trim] *)

Lemma trimStart_blank (s : JsString) : Spec.blank (trimStart s) <-> Spec.blank s.
Proof.
  unfold Spec.blank. induction s as [|c s IH]; simpl; [tauto|].
  destruct (is_white_space c) eqn:E; [|tauto].
  rewrite IH. split; intros H.
  - now constructor.
  - now inversion H.
Qed.

Lemma trimStart_nil (s : JsString) : trimStart s = [] <-> Spec.blank s.
Proof.
  unfold Spec.blank. induction s as [|c s IH]; simpl.
  - split; [constructor|reflexivity].
  - destruct (is_white_space c) eqn:E.
    + rewrite IH. split; intros H; [now constructor|now inversion H].
    + split; [discriminate|]. intros H. inversion H. congruence.
Qed.

Lemma trim_nil (s : JsString) : trim s = [] <-> Spec.blank s.
Proof.
  unfold trim, trimEnd. rewrite <- trimStart_blank.
  split.
  - intros H. apply (f_equal (@rev N)) in H. rewrite rev_involutive in H.
    simpl in H. apply trimStart_nil in H. unfold Spec.blank in *.
    apply Forall_rev in H. now rewrite rev_involutive in H.
  - intros H. unfold Spec.blank in H. apply Forall_rev in H.
    apply trimStart_nil in H. now rewrite H.
Qed.

(** The guard of app.js, line 24, is false exactly on blank transcripts. *)
Lemma guard_false_iff_blank (s : JsString) :
  (0 <? length (trim s)) = false <-> Spec.blank s.
Proof.
  rewrite <- trim_nil, Nat.ltb_ge. destruct (trim s); simpl; split;
    (reflexivity || discriminate || lia).
Qed.

(** ** What an event handler sends *)

Lemma script_onresult_calls (event : SpeechRecognitionEvent) (s : Script.State) :
  Script.calls (Script.onresult event s)
  = [Script.Fetch (lit "/process_text") (Script.display_text event)].
Proof. reflexivity. Qed.

Lemma app_onresult_calls (event : SpeechRecognitionEvent) (s : App.State) :
  App.calls (App.onresult event s)
  = if 0 <? length (trim (App.transcript_of event))
    then [App.Fetch (lit "/correct") (App.JsonText (App.transcript_of event))]
    else [].
Proof.
  unfold App.onresult. now destruct (0 <? length (trim (App.transcript_of event))).
Qed.

(** [onstop] sends one request, with the chunks held at that moment. *)
Lemma onstop_submits_once (s : App.State) :
  App.calls (App.mediaRecorder_onstop s)
  = [App.Fetch (lit "/emotion")
       (App.FormData (lit "audio")
          {| App.blobParts := App.audioChunks s; App.type := lit "audio/wav" |}
          (lit "speech.wav"))].
Proof. reflexivity. Qed.

(** ** Correction responses *)

(** C2 (as amended).  A correction request carries its text only; whichever
    pending request is answered, its answer is written into the corrected
    field when it arrives, so the field shows the answer that arrived last,
    whatever the order of issue. *)
Theorem response_applied_on_arrival :
  (forall s h data,
     Script.pending h s = true ->
     Script.corrected
       (Script.dom (Script.after (Script.step (Script.Settled h (Json data)) s)))
     = Script.highlighted data)
  /\ (forall s h data,
        App.enabled s (App.CorrectSettled h (Json data)) = true ->
        App.correctedText
          (App.dom (App.after (App.step (App.CorrectSettled h (Json data)) s)))
        = App.check_mark ++ App.data_corrected data).
Proof.
  split; intros s h data H.
  - unfold Script.step. simpl Script.enabled. rewrite H. reflexivity.
  - unfold App.step. rewrite H. reflexivity.
Qed.

Lemma response_applied_on_arrival_witness :
  let s := fst (Script.run Samples.script_ready Samples.three_requests) in
  let a := fst (App.run Samples.app_ready Samples.one_sentence) in
  Script.pending 2 s = true
  /\ Script.corrected
       (Script.dom (Script.after
          (Script.step (Script.Settled 2 (Samples.answer "he goes to")) s)))
     = lit "he goes to"
  /\ App.enabled a (App.CorrectSettled 2 (Samples.corrected_to "I am fine")) = true
  /\ App.correctedText
       (App.dom (App.after
          (App.step (App.CorrectSettled 2 (Samples.corrected_to "I am fine")) a)))
     = App.check_mark ++ lit "I am fine".
Proof.
  intros s a.
  split; [reflexivity|]. split.
  - exact (proj1 response_applied_on_arrival s 2
             {| Script.highlighted := lit "he goes to";
                Script.data_confidence := None |} eq_refl).
  - split; [reflexivity|].
    exact (proj2 response_applied_on_arrival a 2
             {| App.data_corrected := lit "I am fine" |} eq_refl).
Defined.

(** C2, the claim as written, fails: requests 1, 2, 3 are issued in order,
    answer 3 arrives and is shown, then answer 2 arrives and replaces it. *)
Lemma late_answer_replaces_newer :
  let s3 := fst (Script.run Samples.script_ready
                   (Samples.three_requests
                    ++ [Script.Settled 3 (Samples.answer "he goes to school")])) in
  let s2 := fst (Script.run Samples.script_ready Samples.third_then_second) in
  Script.feasible Samples.script_ready Samples.third_then_second = true
  /\ map fst (Script.inflight
                (fst (Script.run Samples.script_ready Samples.three_requests)))
     = [1; 2; 3]
  /\ Script.corrected (Script.dom s3) = lit "he goes to school"
  /\ Script.corrected (Script.dom s2) = lit "he goes to"
  /\ Script.corrected (Script.dom s2) <> Script.corrected (Script.dom s3).
Proof. vm_compute. repeat split; discriminate. Qed.

(** ** The audio clip *)

Lemma app_run_app (t1 t2 : list App.Event) :
  forall s, App.run s (t1 ++ t2)
            = (fst (App.run (fst (App.run s t1)) t2),
               snd (App.run s t1) ++ snd (App.run (fst (App.run s t1)) t2)).
Proof.
  induction t1 as [|e t1 IH]; intros s.
  - simpl. now destruct (App.run s t2).
  - cbn [App.run app]. rewrite IH.
    destruct (App.run (App.after (App.step e s)) t1) as [s1 c1]. simpl.
    now rewrite app_assoc.
Qed.

Lemma app_feasible_app (t1 t2 : list App.Event) :
  forall s, App.feasible s (t1 ++ t2)
            = App.feasible s t1 && App.feasible (fst (App.run s t1)) t2.
Proof.
  induction t1 as [|e t1 IH]; intros s; [reflexivity|].
  cbn [App.feasible App.run app]. rewrite IH.
  destruct (App.run (App.after (App.step e s)) t1) as [s1 c1]. simpl.
  now rewrite andb_assoc.
Qed.

Lemma app_data_run (rid : nat) (ds : list App.Chunk) :
  forall s,
    match nth_error (App.recorders s) rid with
    | Some App.Recording | Some App.Stopping => True
    | _ => False
    end ->
    App.feasible s (map (App.DataAvailable rid) ds) = true
    /\ App.run s (map (App.DataAvailable rid) ds)
       = (App.set_audioChunks (App.audioChunks s ++ ds) s, []).
Proof.
  induction ds as [|d ds IH]; intros s Hr.
  - split; [reflexivity|]. simpl. rewrite app_nil_r. now destruct s.
  - cbn [map App.feasible App.run]. unfold App.step.
    assert (He : App.enabled s (App.DataAvailable rid d) = true).
    { simpl. destruct (nth_error (App.recorders s) rid) as [[| |]|]; tauto. }
    rewrite He. cbn [App.dispatch App.mediaRecorder_ondataavailable App.idle App.after App.calls].
    destruct (IH (App.set_audioChunks (App.audioChunks s ++ [d]) s) Hr) as [Hf Hrun].
    rewrite Hf, Hrun. split; [reflexivity|]. simpl.
    now rewrite <- app_assoc.
Qed.

Lemma update_nth_error (r : App.RecorderState) (l : list App.RecorderState) :
  forall rid, rid < length l -> nth_error (App.update rid r l) rid = Some r.
Proof.
  induction l as [|x l IH]; intros [|rid] H; simpl in *; try lia.
  - reflexivity.
  - apply IH. lia.
Qed.

(** X10.  A recording nothing interferes with: the stream arrives, the
    recorder delivers its chunks, before and after the stop click, and stops.
    One request is sent and it carries those chunks, all, in order. *)
Lemma quiet_session (s : App.State) (h : nat) (early late : list App.Chunk) :
  App.installed s = true ->
  App.lookup h s = Some App.PendingStream ->
  let rid := length (App.recorders s) in
  let trace :=
    App.StreamSettled h true
    :: map (App.DataAvailable rid) early
    ++ App.StopClick
    :: map (App.DataAvailable rid) late
    ++ [App.RecorderStopped rid] in
  App.feasible s trace = true
  /\ App.submitted (snd (App.run s trace))
     = [{| App.blobParts := early ++ late; App.type := lit "audio/wav" |}].
Proof.
  intros Hi Hl rid trace. subst trace.
  assert (Hnew : nth_error (App.recorders s ++ [App.Recording]) rid
                 = Some App.Recording).
  { unfold rid. rewrite nth_error_app2, Nat.sub_diag by lia. reflexivity. }
  assert (Hlen : rid < length (App.recorders s ++ [App.Recording])).
  { unfold rid. rewrite length_app. simpl. lia. }
  set (s1 := {| App.recognition := App.recognition s;
                App.mediaRecorder := Some rid; App.audioChunks := [];
                App.dom := App.dom s; App.started := App.started s;
                App.recorders := App.recorders s ++ [App.Recording];
                App.inflight := App.inflight (App.forget h s);
                App.issued := App.issued s |}).
  assert (He0 : App.enabled s (App.StreamSettled h true) = true).
  { simpl. now rewrite Hl. }
  assert (Hstart : App.step (App.StreamSettled h true) s
                   = {| App.after := s1; App.calls := [App.RecorderStart rid];
                        App.completion := Normal |}).
  { unfold App.step. rewrite He0. reflexivity. }
  cbn [App.feasible App.run]. rewrite He0, Hstart.
  cbn [App.after App.calls andb].
  destruct (app_data_run rid early s1) as [Hf1 Hr1].
  { simpl. now rewrite Hnew. }
  rewrite app_feasible_app, app_run_app, Hf1, Hr1.
  cbn [fst snd andb app App.feasible App.run].
  set (s2 := App.set_audioChunks (App.audioChunks s1 ++ early) s1).
  assert (Hstop : App.step App.StopClick s2
                  = {| App.after := App.set_recorders
                                      (App.update rid App.Stopping (App.recorders s2)) s2;
                       App.calls := [App.RecognitionStop; App.RecorderStop rid];
                       App.completion := Normal |}).
  { unfold App.step, App.enabled, App.installed. simpl App.recognition.
    unfold App.installed in Hi. destruct (App.recognition s); [|discriminate].
    unfold App.dispatch, App.stopBtn_onclick, App.recording. simpl.
    now rewrite Hnew. }
  assert (He2 : App.enabled s2 App.StopClick = true) by exact Hi.
  rewrite He2, Hstop. cbn [App.after App.calls andb].
  set (s3 := App.set_recorders _ s2).
  assert (Hst : nth_error (App.recorders s3) rid = Some App.Stopping).
  { simpl. now apply update_nth_error. }
  destruct (app_data_run rid late s3) as [Hf3 Hr3].
  { now rewrite Hst. }
  rewrite app_feasible_app, app_run_app, Hf3, Hr3.
  cbn [fst snd andb app App.feasible App.run]. unfold App.step.
  assert (He4 : App.enabled (App.set_audioChunks (App.audioChunks s3 ++ late) s3)
                  (App.RecorderStopped rid) = true).
  { cbn [App.enabled App.set_audioChunks App.recorders]. now rewrite Hst. }
  rewrite He4. split; [reflexivity|]. simpl. reflexivity.
Qed.

(** Why the order of deliveries matters.  Were recorder 1 to deliver a chunk
    while still recording, which app.js never asks for (no timeslice, no
    [requestData()]), the analysis of the first recording answering after it
    would empty [audioChunks] (line 63) and the second clip would miss that
    chunk. *)
Remark late_reset_drops_chunk :
  App.feasible Samples.app_ready Samples.restart_before_analysis = true
  /\ App.delivered 1 Samples.restart_before_analysis
     = [Samples.chunk_b; Samples.chunk_c]
  /\ map App.blobParts
       (App.submitted (snd (App.run Samples.app_ready Samples.restart_before_analysis)))
     = [[Samples.chunk_a]; [Samples.chunk_c]].
Proof. vm_compute. repeat split. Qed.

(** ** Stopping and starting *)

(** C4.  A stop click while nothing is recording changes nothing: in
    script.js when [recognizing] is false, in app.js when the recorder held
    by [mediaRecorder] is not recording or there is none; no request is sent
    either. *)
Theorem stop_when_not_recording :
  (forall s, Script.recognizing s = false ->
             Script.after (Script.step Script.StopClick s) = s
             /\ Script.calls (Script.step Script.StopClick s) = [])
  /\ (forall s, App.recording s = false ->
                App.after (App.step App.StopClick s) = s
                /\ filter App.is_fetch (App.calls (App.step App.StopClick s)) = []).
Proof.
  split; intros s H.
  - unfold Script.step, Script.dispatch, Script.stopBtn_onclick. simpl.
    rewrite H. split; reflexivity.
  - unfold App.step, App.dispatch, App.stopBtn_onclick. simpl.
    destruct (App.installed s); [|split; reflexivity].
    rewrite H. destruct (App.mediaRecorder s); split; reflexivity.
Qed.

Lemma stop_when_not_recording_witness :
  Script.recognizing Samples.script_ready = false
  /\ Script.after (Script.step Script.StopClick Samples.script_ready)
     = Samples.script_ready
  /\ App.recording Samples.app_ready = false
  /\ App.after (App.step App.StopClick Samples.app_ready) = Samples.app_ready.
Proof.
  split; [reflexivity|]. split.
  - exact (proj1 (proj1 stop_when_not_recording Samples.script_ready eq_refl)).
  - split; [reflexivity|].
    exact (proj1 (proj2 stop_when_not_recording Samples.app_ready eq_refl)).
Defined.

Lemma script_cycle (trace : list Script.Event) :
  forall s, Script.recognizing s = true -> ~ In Script.StopClick trace ->
    Script.recognizing (fst (Script.run s trace)) = true
    /\ filter Script.is_start (snd (Script.run s trace)) = [].
Proof.
  induction trace as [|e trace IH]; intros s Hr Hns; simpl; [now split|].
  assert (He : Script.recognizing (Script.after (Script.step e s)) = true
               /\ filter Script.is_start (Script.calls (Script.step e s)) = []).
  { unfold Script.step. destruct e; simpl.
    - unfold Script.startBtn_onclick. rewrite Hr. now split.
    - exfalso. apply Hns. now left.
    - destruct (Script.recognition s); [destruct (Script.started s)|]; now split.
    - destruct (Script.started s); now split.
    - destruct (Script.pending h s); [destruct o|]; now split. }
  destruct He as [Hr' Hc'].
  destruct (IH (Script.after (Script.step e s)) Hr') as [IH1 IH2].
  { intros Hin. apply Hns. now right. }
  destruct (Script.run (Script.after (Script.step e s)) trace) as [s' cs].
  simpl in *. split; [exact IH1|].
  rewrite filter_app, Hc', IH2. reflexivity.
Qed.

(** C9.  In script.js a start click while [recognizing] is true changes
    nothing and calls nothing; and from such a state, as long as stop is not
    clicked, whatever else happens, [recognition.start()] is not called. *)
Theorem start_while_recognizing :
  forall s, Script.recognizing s = true ->
    Script.step Script.StartClick s = Script.idle s
    /\ forall trace, ~ In Script.StopClick trace ->
         filter Script.is_start (snd (Script.run s trace)) = [].
Proof.
  intros s H. split.
  - unfold Script.step, Script.dispatch, Script.startBtn_onclick. simpl.
    now rewrite H.
  - intros trace Hns. now apply script_cycle.
Qed.

Lemma start_while_recognizing_witness :
  let s := Script.after (Script.step Script.StartClick Samples.script_ready) in
  Script.recognizing s = true
  /\ Script.step Script.StartClick s = Script.idle s
  /\ filter Script.is_start
       (snd (Script.run s [Script.StartClick; Script.Result Samples.hello_wor;
                           Script.StartClick])) = [].
Proof.
  intros s. split; [reflexivity|]. split.
  - exact (proj1 (start_while_recognizing s eq_refl)).
  - apply (proj2 (start_while_recognizing s eq_refl)).
    simpl. intros [H|[H|[H|[]]]]; discriminate H.
Defined.

(** ** When a correction request is sent *)

(** C5 (as amended).  In script.js every recognition event sends exactly one
    correction request, carrying the text shown, also when that text is
    empty.  In app.js an event sends exactly one request, carrying the whole
    transcript, when the transcript has a character that is not white space,
    and none otherwise. *)
Theorem correction_request_per_event (event : SpeechRecognitionEvent) :
  (forall s, Script.calls (Script.onresult event s)
             = [Script.Fetch (lit "/process_text") (Spec.displayText event)])
  /\ (forall s, ~ Spec.blank (concat (map Spec.best (Spec.in_range event))) ->
                App.calls (App.onresult event s)
                = [App.Fetch (lit "/correct")
                     (App.JsonText (concat (map Spec.best (Spec.in_range event))))])
  /\ (forall s, Spec.blank (concat (map Spec.best (Spec.in_range event))) ->
                App.calls (App.onresult event s) = []).
Proof.
  split; [|split]; intros s.
  - rewrite script_onresult_calls, script_display_text. reflexivity.
  - intros H. rewrite app_onresult_calls, app_transcript_of.
    destruct (0 <? length (trim (concat (map Spec.best (Spec.in_range event)))))
      eqn:E; [reflexivity|].
    apply guard_false_iff_blank in E. contradiction.
  - intros H. rewrite app_onresult_calls, app_transcript_of.
    apply guard_false_iff_blank in H. now rewrite H.
Qed.

Lemma correction_request_per_event_witness :
  ~ Spec.blank (concat (map Spec.best (Spec.in_range Samples.hello_wor)))
  /\ App.calls (App.onresult Samples.hello_wor Samples.app_ready)
     = [App.Fetch (lit "/correct") (App.JsonText (lit "hello wor"))]
  /\ Spec.blank (concat (map Spec.best (Spec.in_range Samples.spaces)))
  /\ App.calls (App.onresult Samples.spaces Samples.app_ready) = [].
Proof.
  assert (H1 : ~ Spec.blank (concat (map Spec.best (Spec.in_range Samples.hello_wor)))).
  { intros H. inversion H as [|c l Hc Hl]. discriminate Hc. }
  assert (H2 : Spec.blank (concat (map Spec.best (Spec.in_range Samples.spaces)))).
  { repeat constructor. }
  split; [exact H1|]. split.
  - exact (proj1 (proj2 (correction_request_per_event Samples.hello_wor))
             Samples.app_ready H1).
  - split; [exact H2|].
    exact (proj2 (proj2 (correction_request_per_event Samples.spaces))
             Samples.app_ready H2).
Defined.

(** C5, the claim as written, fails on script.js: an event without results
    shows the empty text and a request is sent all the same. *)
Lemma empty_text_is_sent :
  ~ (forall event s, Spec.displayText event = [] ->
                     Script.calls (Script.onresult event s) = []).
Proof.
  intros H. specialize (H Samples.no_results Samples.script_ready eq_refl).
  discriminate H.
Qed.

(** C10.  In app.js a transcript that is not empty but all white space is
    shown in [speechText], and nothing else happens: no request, no pending
    promise, [correctedText] as before.  A request, when there is one, is the
    one POST to /correct with the transcript as it is, not trimmed. *)
Theorem blank_transcript_not_sent (event : SpeechRecognitionEvent) (s : App.State) :
  App.transcript_of event <> [] ->
  Spec.blank (App.transcript_of event) ->
  App.after (App.onresult event s) = App.set_speechText (App.transcript_of event) s
  /\ App.speechText (App.dom (App.after (App.onresult event s)))
     = App.transcript_of event
  /\ App.correctedText (App.dom (App.after (App.onresult event s)))
     = App.correctedText (App.dom s)
  /\ App.calls (App.onresult event s) = []
  /\ forall event' s' c,
       In c (App.calls (App.onresult event' s')) ->
       c = App.Fetch (lit "/correct") (App.JsonText (App.transcript_of event')).
Proof.
  intros _ Hb. apply guard_false_iff_blank in Hb.
  unfold App.onresult. rewrite Hb. simpl.
  repeat (split; [reflexivity|]).
  intros event' s' c.
  destruct (0 <? length (trim (App.transcript_of event'))); simpl.
  - intros [H|[]]. now symmetry.
  - intros [].
Qed.

Lemma blank_transcript_not_sent_witness :
  App.transcript_of Samples.spaces <> []
  /\ Spec.blank (App.transcript_of Samples.spaces)
  /\ App.speechText
       (App.dom (App.after (App.onresult Samples.spaces Samples.app_ready)))
     = lit "  "
  /\ App.calls (App.onresult Samples.spaces Samples.app_ready) = [].
Proof.
  assert (H1 : App.transcript_of Samples.spaces <> []) by discriminate.
  assert (H2 : Spec.blank (App.transcript_of Samples.spaces))
    by (repeat constructor).
  pose proof (blank_transcript_not_sent Samples.spaces Samples.app_ready H1 H2)
    as (_ & H3 & _ & H4 & _).
  split; [exact H1|]. split; [exact H2|]. split; [exact H3|exact H4].
Defined.

(** ** The two response streams of app.js *)

(** C6 (as amended).  app.js has one output field for both streams.  An
    analysis answer or failure appends its line to [correctedText]: the text
    already there stays, as the beginning of the new text, and [speechText]
    stays.  A correction answer or failure replaces [correctedText] as a
    whole, whatever it held, and leaves [speechText] and the chunks alone. *)
Theorem responses_share_one_field (s : App.State) (h : nat) :
  (forall o, App.enabled s (App.EmotionSettled h o) = true ->
     let s' := App.after (App.step (App.EmotionSettled h o) s) in
     App.speechText (App.dom s') = App.speechText (App.dom s)
     /\ App.correctedText (App.dom s')
        = App.correctedText (App.dom s)
          ++ match o with
             | Json data => App.emotion_line (App.emotion data)
             | _ => App.emotion_error
             end)
  /\ (forall o, App.enabled s (App.CorrectSettled h o) = true ->
        let s' := App.after (App.step (App.CorrectSettled h o) s) in
        App.speechText (App.dom s') = App.speechText (App.dom s)
        /\ App.audioChunks s' = App.audioChunks s
        /\ App.correctedText (App.dom s')
           = match o with
             | Json data => App.check_mark ++ App.data_corrected data
             | _ => App.grammar_error
             end).
Proof.
  split; intros o H s'; subst s'; unfold App.step; rewrite H.
  - destruct o; split; reflexivity.
  - destruct o; repeat split; reflexivity.
Qed.

Lemma responses_share_one_field_witness :
  let s := fst (App.run Samples.app_ready Samples.analysis_answered) in
  App.enabled s (App.CorrectSettled 2 (Samples.corrected_to "I am fine")) = true
  /\ App.correctedText
       (App.dom (App.after
          (App.step (App.CorrectSettled 2 (Samples.corrected_to "I am fine")) s)))
     = App.check_mark ++ lit "I am fine".
Proof.
  intros s. split; [reflexivity|].
  exact (proj2 (proj2 (proj2 (responses_share_one_field s 2)
                         (Samples.corrected_to "I am fine") eq_refl))).
Defined.

(** C6, the claim as written, fails: the analysis line is on the page, the
    correction answer arrives, and the line is gone. *)
Lemma correction_erases_analysis_line :
  let s := fst (App.run Samples.app_ready Samples.analysis_answered) in
  let s' := App.after
              (App.step (App.CorrectSettled 2 (Samples.corrected_to "I am fine")) s) in
  App.feasible Samples.app_ready
    (Samples.analysis_answered
     ++ [App.CorrectSettled 2 (Samples.corrected_to "I am fine")]) = true
  /\ Spec.shows (App.emotion_line (lit "happy")) (App.correctedText (App.dom s)) = true
  /\ Spec.shows (lit "happy") (App.correctedText (App.dom s')) = false.
Proof. vm_compute. repeat split. Qed.

(** ** A correction request that fails *)

(** C7 (as amended).  In app.js a correction request that fails, on the
    network or on parsing, is caught: [correctedText] becomes the error
    marker, as a whole, and nothing else changes; nothing is sent again, and
    what later events send is as before.  In script.js the failure is not
    caught: no field changes, no marker is written, nothing is sent again,
    and what later events send is as before. *)
Theorem correction_failure (h : nat) :
  (forall s o, failed o = true ->
     App.enabled s (App.CorrectSettled h o) = true ->
     let r := App.step (App.CorrectSettled h o) s in
     App.completion r = Normal
     /\ App.calls r = []
     /\ App.after r = App.set_correctedText App.grammar_error (App.forget h s)
     /\ App.speechText (App.dom (App.after r)) = App.speechText (App.dom s)
     /\ forall event,
          App.calls (App.onresult event (App.after r))
          = App.calls (App.onresult event s))
  /\ (forall s (o : Settlement Script.ProcessTextData), failed o = true ->
        Script.pending h s = true ->
        let r := Script.step (Script.Settled h o) s in
        Script.completion r = Throw Rejected
        /\ Script.calls r = []
        /\ Script.after r = Script.forget h s
        /\ Script.dom (Script.after r) = Script.dom s
        /\ forall event,
             Script.calls (Script.onresult event (Script.after r))
             = Script.calls (Script.onresult event s)).
Proof.
  split; intros s o Hf He r; subst r.
  - unfold App.step. rewrite He.
    destruct o; try discriminate Hf; simpl; repeat split;
      intros event; now rewrite !app_onresult_calls.
  - unfold Script.step. simpl Script.enabled. rewrite He.
    destruct o; try discriminate Hf; simpl; repeat split.
Qed.

Lemma correction_failure_witness :
  let a := fst (App.run Samples.app_ready Samples.one_sentence) in
  let s := fst (Script.run Samples.script_ready Samples.three_requests) in
  App.enabled a (App.CorrectSettled 2 BodyNotJson) = true
  /\ App.correctedText
       (App.dom (App.after (App.step (App.CorrectSettled 2 BodyNotJson) a)))
     = App.grammar_error
  /\ Script.pending 2 s = true
  /\ Script.dom (Script.after (Script.step (Script.Settled 2 NetworkError) s))
     = Script.dom s.
Proof.
  intros a s.
  pose proof (proj1 (correction_failure 2) a BodyNotJson eq_refl eq_refl)
    as (_ & _ & Ha & _).
  pose proof (proj2 (correction_failure 2) s NetworkError eq_refl eq_refl)
    as (_ & _ & _ & Hs & _).
  split; [reflexivity|]. split; [now rewrite Ha|].
  split; [reflexivity|exact Hs].
Defined.

(** C7, the claim as written, fails.  In script.js the failed request leaves
    the corrected field as it was, here empty: no marker.  In app.js the
    marker replaces the whole field and the analysis line, which was there,
    is gone. *)
Lemma failure_without_marker_or_analysis :
  let s := fst (Script.run Samples.script_ready Samples.three_requests) in
  let a := fst (App.run Samples.app_ready Samples.analysis_answered) in
  Script.feasible Samples.script_ready
    (Samples.three_requests ++ [Script.Settled 2 NetworkError]) = true
  /\ Script.corrected
       (Script.dom (Script.after (Script.step (Script.Settled 2 NetworkError) s)))
     = []
  /\ App.feasible Samples.app_ready
       (Samples.analysis_answered ++ [App.CorrectSettled 2 NetworkError]) = true
  /\ Spec.shows (App.emotion_line (lit "happy")) (App.correctedText (App.dom a)) = true
  /\ App.correctedText
       (App.dom (App.after (App.step (App.CorrectSettled 2 NetworkError) a)))
     = App.grammar_error
  /\ Spec.shows (lit "happy") App.grammar_error = false.
Proof. vm_compute. repeat split. Qed.

(** ** A browser without speech recognition *)

Lemma script_bare_step (e : Script.Event) (s : Script.State) :
  Script.recognition s = None -> Script.recognizing s = false ->
  Script.started s = false -> Script.inflight s = [] ->
  Script.after (Script.step e s) = s /\ Script.calls (Script.step e s) = [].
Proof.
  intros Hr Hg Hs Hi. unfold Script.step.
  destruct e; simpl;
    unfold Script.startBtn_onclick, Script.stopBtn_onclick, Script.pending;
    rewrite ?Hr, ?Hg, ?Hs, ?Hi; simpl; split; reflexivity.
Qed.

Lemma app_bare_step (e : App.Event) (s : App.State) :
  App.recognition s = None -> App.started s = false ->
  App.recorders s = [] -> App.inflight s = [] ->
  App.after (App.step e s) = s /\ App.calls (App.step e s) = [].
Proof.
  intros Hr Hs Hm Hi. unfold App.step.
  destruct e; simpl; unfold App.installed, App.lookup;
    rewrite ?Hr, ?Hs, ?Hm, ?Hi; simpl; try (split; reflexivity).
  - destruct rid; split; reflexivity.
  - destruct rid; split; reflexivity.
Qed.

Lemma script_bare_run (trace : list Script.Event) (s : Script.State) :
  Script.recognition s = None -> Script.recognizing s = false ->
  Script.started s = false -> Script.inflight s = [] ->
  Script.run s trace = (s, []).
Proof.
  intros Hr Hg Hs Hi. induction trace as [|e trace IH]; [reflexivity|].
  cbn [Script.run].
  destruct (script_bare_step e s Hr Hg Hs Hi) as [Ha Hc].
  rewrite Ha, Hc, IH. reflexivity.
Qed.

Lemma app_bare_run (trace : list App.Event) (s : App.State) :
  App.recognition s = None -> App.started s = false ->
  App.recorders s = [] -> App.inflight s = [] ->
  App.run s trace = (s, []).
Proof.
  intros Hr Hs Hm Hi. induction trace as [|e trace IH]; [reflexivity|].
  cbn [App.run].
  destruct (app_bare_step e s Hr Hs Hm Hi) as [Ha Hc].
  rewrite Ha, Hc, IH. reflexivity.
Qed.

(** C8.  Without the recognition capability both files tell the user so when
    they load, before any click; after that, whatever the browser delivers,
    clicks on start included, the state stays the one of loading, where
    nothing is recognizing or recording, and nothing is called. *)
Theorem no_session_without_capability :
  (forall page,
     Script.calls (Script.load false page)
     = [Script.Alert (lit "Your browser does not support Speech Recognition.")]
     /\ Script.recognizing (Script.after (Script.load false page)) = false
     /\ Script.started (Script.after (Script.load false page)) = false
     /\ forall trace,
          Script.run (Script.after (Script.load false page)) trace
          = (Script.after (Script.load false page), []))
  /\ (forall page,
        App.calls (App.load false page)
        = [App.Alert (App.cross_mark ++
             lit " Speech Recognition not supported in this browser. Use Chrome.")]
        /\ App.started (App.after (App.load false page)) = false
        /\ App.recording (App.after (App.load false page)) = false
        /\ forall trace,
             App.run (App.after (App.load false page)) trace
             = (App.after (App.load false page), [])).
Proof.
  split; intros page; repeat (split; [reflexivity|]); intros trace.
  - now apply script_bare_run.
  - now apply app_bare_run.
Qed.

(** ** More on the text shown for an event *)

Lemma in_range_past_end (event : SpeechRecognitionEvent) :
  length (results event) <= resultIndex event -> Spec.in_range event = [].
Proof. intros H. unfold Spec.in_range. now apply skipn_all2. Qed.

(** X1.  An event whose [resultIndex] is at or past the end of [results]
    shows the empty text in both files; script.js posts the empty text,
    app.js posts nothing. *)
Theorem index_past_the_end (event : SpeechRecognitionEvent) :
  length (results event) <= resultIndex event ->
  Script.display_text event = []
  /\ App.transcript_of event = []
  /\ (forall s, Script.calls (Script.onresult event s)
                = [Script.Fetch (lit "/process_text") []])
  /\ (forall s, App.calls (App.onresult event s) = []).
Proof.
  intros H. apply in_range_past_end in H.
  assert (Hs : Script.display_text event = []).
  { rewrite script_display_text. unfold Spec.displayText, Spec.finalSegment,
      Spec.interimSegment. now rewrite H. }
  assert (Ha : App.transcript_of event = []).
  { rewrite app_transcript_of. now rewrite H. }
  split; [exact Hs|]. split; [exact Ha|]. split; intros s.
  - rewrite script_onresult_calls. now rewrite Hs.
  - rewrite app_onresult_calls. now rewrite Ha.
Qed.

Lemma index_past_the_end_witness :
  length (results Samples.past_the_end) <= resultIndex Samples.past_the_end
  /\ Script.display_text Samples.past_the_end = []
  /\ App.calls (App.onresult Samples.past_the_end Samples.app_ready) = [].
Proof.
  assert (H : length (results Samples.past_the_end)
              <= resultIndex Samples.past_the_end) by (simpl; lia).
  pose proof (index_past_the_end Samples.past_the_end H) as (H1 & _ & _ & H2).
  split; [exact H|]. split; [exact H1|apply H2].
Defined.

(** X2.  The entries before [resultIndex] do not count: an event shows what
    the event made of its entries from [resultIndex] on, read from index 0,
    shows. *)
Theorem entries_before_index_ignored (before rest : list SpeechRecognitionResult) :
  Script.display_text {| resultIndex := length before; results := before ++ rest |}
  = Script.display_text {| resultIndex := 0; results := rest |}
  /\ App.transcript_of {| resultIndex := length before; results := before ++ rest |}
     = App.transcript_of {| resultIndex := 0; results := rest |}.
Proof.
  assert (H : Spec.in_range {| resultIndex := length before;
                               results := before ++ rest |}
              = Spec.in_range {| resultIndex := 0; results := rest |}).
  { unfold Spec.in_range. simpl.
    rewrite skipn_app, skipn_all, Nat.sub_diag. reflexivity. }
  split.
  - rewrite !script_display_text.
    unfold Spec.displayText, Spec.finalSegment, Spec.interimSegment.
    now rewrite H.
  - rewrite !app_transcript_of. now rewrite H.
Qed.

Lemma concat_all_nil (l : list JsString) :
  (forall x, In x l -> x = []) -> concat l = [].
Proof.
  induction l as [|y l IH]; intros H; simpl; [reflexivity|].
  rewrite (H y) by now left. apply IH. intros x Hx. apply H. now right.
Qed.

(** X3.  In script.js final entries whose transcripts are all empty do not
    hide the interim ones: the text shown is then the concatenation of the
    interim entries in range. *)
Theorem empty_finals_show_interim (event : SpeechRecognitionEvent) :
  (forall r, In r (Spec.in_range event) -> isFinal r = true -> Spec.best r = []) ->
  Script.display_text event = Spec.interimSegment event.
Proof.
  intros H. rewrite script_display_text. unfold Spec.displayText.
  assert (E : Spec.finalSegment event = []).
  { apply concat_all_nil. intros x Hx. apply in_map_iff in Hx.
    destruct Hx as (r & <- & Hr). apply filter_In in Hr. now apply H. }
  now rewrite E.
Qed.

Lemma empty_finals_show_interim_witness :
  (forall r, In r (Spec.in_range Samples.silent_final) -> isFinal r = true ->
             Spec.best r = [])
  /\ Script.display_text Samples.silent_final = lit "wor".
Proof.
  assert (H : forall r, In r (Spec.in_range Samples.silent_final) ->
                        isFinal r = true -> Spec.best r = []).
  { intros r [<-|[<-|[]]]; [reflexivity|discriminate]. }
  split; [exact H|].
  exact (empty_finals_show_interim Samples.silent_final H).
Defined.

Lemma filter_all {A} (f : A -> bool) (l : list A) :
  (forall x, In x l -> f x = true) -> filter f l = l.
Proof.
  induction l as [|y l IH]; intros H; simpl; [reflexivity|].
  rewrite (H y) by now left. f_equal. apply IH. intros x Hx. apply H. now right.
Qed.

Lemma filter_none {A} (f : A -> bool) (l : list A) :
  (forall x, In x l -> f x = false) -> filter f l = [].
Proof.
  induction l as [|y l IH]; intros H; simpl; [reflexivity|].
  rewrite (H y) by now left. apply IH. intros x Hx. apply H. now right.
Qed.

(** X4.  When the entries in range are all final, or all interim, the two
    files show the same text. *)
Theorem files_agree_on_uniform_events (event : SpeechRecognitionEvent) (b : bool) :
  (forall r, In r (Spec.in_range event) -> isFinal r = b) ->
  Script.display_text event = App.transcript_of event.
Proof.
  intros H. rewrite script_display_text, app_transcript_of.
  unfold Spec.displayText, Spec.finalSegment, Spec.interimSegment.
  destruct b.
  - rewrite (filter_all isFinal) by exact H.
    rewrite (filter_none (fun r => negb (isFinal r))).
    + now destruct (concat (map Spec.best (Spec.in_range event))).
    + intros x Hx. now rewrite (H x Hx).
  - rewrite (filter_none isFinal) by exact H.
    rewrite (filter_all (fun r => negb (isFinal r))); [reflexivity|].
    intros x Hx. now rewrite (H x Hx).
Qed.

Lemma files_agree_on_uniform_events_witness :
  (forall r, In r (Spec.in_range Samples.two_interims) -> isFinal r = false)
  /\ Script.display_text Samples.two_interims
     = App.transcript_of Samples.two_interims.
Proof.
  assert (H : forall r, In r (Spec.in_range Samples.two_interims) ->
                        isFinal r = false).
  { intros r [<-|[<-|[]]]; reflexivity. }
  split; [exact H|].
  exact (files_agree_on_uniform_events Samples.two_interims H).
Defined.

(** ** Whole runs *)

Lemma last_cons {A} (l : list A) :
  forall x d, last (x :: l) d = last l x.
Proof.
  induction l as [|y l IH]; intros x d; [reflexivity|].
  change (last (x :: y :: l) d) with (last (y :: l) d).
  now rewrite (IH y d), (IH y x).
Qed.

Lemma script_run_cons (e : Script.Event) (trace : list Script.Event) (s : Script.State) :
  Script.run s (e :: trace)
  = (fst (Script.run (Script.after (Script.step e s)) trace),
     Script.calls (Script.step e s)
     ++ snd (Script.run (Script.after (Script.step e s)) trace)).
Proof.
  cbn [Script.run]. now destruct (Script.run (Script.after (Script.step e s)) trace).
Qed.

Lemma app_run_cons (e : App.Event) (trace : list App.Event) (s : App.State) :
  App.run s (e :: trace)
  = (fst (App.run (App.after (App.step e s)) trace),
     App.calls (App.step e s) ++ snd (App.run (App.after (App.step e s)) trace)).
Proof.
  cbn [App.run]. now destruct (App.run (App.after (App.step e s)) trace).
Qed.

Lemma script_sent_app (a b : list Script.Call) :
  Trace.script_sent (a ++ b) = Trace.script_sent a ++ Trace.script_sent b.
Proof.
  induction a as [|c a IH]; [reflexivity|].
  destruct c; simpl; now rewrite IH.
Qed.

Lemma app_sent_app (a b : list App.Call) :
  Trace.app_sent (a ++ b) = Trace.app_sent a ++ Trace.app_sent b.
Proof.
  induction a as [|c a IH]; [reflexivity|].
  destruct c as [| | | | | |u [t|f bl n]]; simpl; now rewrite IH.
Qed.

Lemma submitted_app (a b : list App.Call) :
  App.submitted (a ++ b) = App.submitted a ++ App.submitted b.
Proof.
  induction a as [|c a IH]; [reflexivity|].
  destruct c as [| | | | | |u [t|f bl n]]; simpl; now rewrite IH.
Qed.

Lemma guard_is_blank (t : JsString) :
  (0 <? length (trim t)) = negb (Trace.is_blank t).
Proof.
  destruct (0 <? length (trim t)) eqn:G, (Trace.is_blank t) eqn:B;
    try reflexivity; exfalso.
  - assert (Hb : Spec.blank t).
    { apply Forall_forall. unfold Trace.is_blank in B.
      now apply forallb_forall. }
    apply guard_false_iff_blank in Hb. congruence.
  - apply guard_false_iff_blank in G. unfold Spec.blank in G.
    rewrite Forall_forall in G. unfold Trace.is_blank in B.
    assert (forallb is_white_space t = true) by now apply forallb_forall.
    congruence.
Qed.

(** X5.  In script.js, along every run, the original field shows the text of
    the last recognition result and the corrected field the last well-formed
    answer that arrived, whatever came in between; without one, they are as
    they were. *)
Theorem script_fields_show_latest (trace : list Script.Event) :
  forall s, Script.feasible s trace = true ->
    Script.original (Script.dom (fst (Script.run s trace)))
    = last (map Spec.displayText (Trace.script_results trace))
           (Script.original (Script.dom s))
    /\ Script.corrected (Script.dom (fst (Script.run s trace)))
       = last (map Script.highlighted (Trace.script_answers trace))
              (Script.corrected (Script.dom s)).
Proof.
  induction trace as [|e trace IH]; intros s Hf; [now split|].
  cbn [Script.feasible] in Hf. apply andb_prop in Hf. destruct Hf as [He Hf].
  rewrite script_run_cons. cbn [fst].
  destruct (IH _ Hf) as [IHo IHc]. rewrite IHo, IHc. clear IH IHo IHc Hf.
  unfold Script.step. rewrite He.
  destruct e as [| |event| |h [| |data]];
    cbn [Script.dispatch Trace.script_results Trace.script_answers map];
    rewrite ?last_cons; try (split; reflexivity).
  - unfold Script.startBtn_onclick.
    destruct (negb (Script.recognizing s)); [|now split].
    destruct (Script.recognition s); [|now split].
    destruct (Script.started s); now split.
  - unfold Script.stopBtn_onclick.
    destruct (Script.recognizing s); [|now split].
    destruct (Script.recognition s); now split.
  - simpl. now rewrite script_display_text.
Qed.

Lemma script_fields_show_latest_witness :
  Script.feasible Samples.script_ready Samples.third_then_second = true
  /\ Script.corrected
       (Script.dom (fst (Script.run Samples.script_ready Samples.third_then_second)))
     = lit "he goes to".
Proof.
  split; [reflexivity|].
  exact (proj2 (script_fields_show_latest Samples.third_then_second
                  Samples.script_ready eq_refl)).
Defined.

(** X6.  In app.js, along every run, [speechText] shows the whole transcript
    of the last recognition result, whatever answers, chunks and clicks came
    in between; without one, it is as it was. *)
Theorem app_speech_text_shows_latest (trace : list App.Event) :
  forall s, App.feasible s trace = true ->
    App.speechText (App.dom (fst (App.run s trace)))
    = last (map (fun event => concat (map Spec.best (Spec.in_range event)))
                (Trace.app_results trace))
           (App.speechText (App.dom s)).
Proof.
  induction trace as [|e trace IH]; intros s Hf; [reflexivity|].
  cbn [App.feasible] in Hf. apply andb_prop in Hf. destruct Hf as [He Hf].
  rewrite app_run_cons. cbn [fst]. rewrite (IH _ Hf). clear IH Hf.
  unfold App.step. rewrite He.
  destruct e as [| |event| |h g|h [| |data]|h [| |data]|rid d|rid];
    cbn [App.dispatch Trace.app_results map];
    rewrite ?last_cons; try reflexivity.
  - unfold App.startBtn_onclick. now destruct (App.started s).
  - unfold App.stopBtn_onclick.
    destruct (App.mediaRecorder s); [|reflexivity].
    now destruct (App.recording s).
  - rewrite <- app_transcript_of. unfold App.onresult.
    now destruct (0 <? length (trim (App.transcript_of event))).
  - now destruct g.
Qed.

Lemma app_speech_text_shows_latest_witness :
  App.feasible Samples.app_ready Samples.analysis_answered = true
  /\ App.speechText
       (App.dom (fst (App.run Samples.app_ready Samples.analysis_answered)))
     = lit "i is fine".
Proof.
  split; [reflexivity|].
  exact (app_speech_text_shows_latest Samples.analysis_answered
           Samples.app_ready eq_refl).
Defined.

(** X7.  In script.js the requests of a run are, in order, one per
    recognition result, each with the text shown for it; no click and no
    answer sends anything. *)
Theorem script_requests_follow_results (trace : list Script.Event) :
  forall s, Script.feasible s trace = true ->
    Trace.script_sent (snd (Script.run s trace))
    = map Spec.displayText (Trace.script_results trace).
Proof.
  induction trace as [|e trace IH]; intros s Hf; [reflexivity|].
  cbn [Script.feasible] in Hf. apply andb_prop in Hf. destruct Hf as [He Hf].
  rewrite script_run_cons. cbn [snd]. rewrite script_sent_app, (IH _ Hf).
  clear IH Hf. unfold Script.step. rewrite He.
  destruct e as [| |event| |h [| |data]];
    cbn [Script.dispatch Trace.script_results map]; try reflexivity.
  - unfold Script.startBtn_onclick.
    destruct (negb (Script.recognizing s)); [|reflexivity].
    destruct (Script.recognition s); [|reflexivity].
    now destruct (Script.started s).
  - unfold Script.stopBtn_onclick.
    destruct (Script.recognizing s); [|reflexivity].
    now destruct (Script.recognition s).
  - simpl. now rewrite script_display_text.
Qed.

Lemma script_requests_follow_results_witness :
  Script.feasible Samples.script_ready Samples.third_then_second = true
  /\ Trace.script_sent
       (snd (Script.run Samples.script_ready Samples.third_then_second))
     = [lit "he go"; lit "he go to"; lit "he go to school"].
Proof.
  split; [reflexivity|].
  exact (script_requests_follow_results Samples.third_then_second
           Samples.script_ready eq_refl).
Defined.

(** X8.  In app.js the texts posted to /correct in a run are, in order, the
    transcripts of the recognition results that are not all white space; and
    as many clips are posted to /emotion as recorders fired their stop
    event.  No other handler posts anything. *)
Theorem app_requests_follow_events (trace : list App.Event) :
  forall s, App.feasible s trace = true ->
    Trace.app_sent (snd (App.run s trace))
    = filter (fun t => negb (Trace.is_blank t))
        (map (fun event => concat (map Spec.best (Spec.in_range event)))
             (Trace.app_results trace))
    /\ length (App.submitted (snd (App.run s trace)))
       = length (filter Trace.is_stopped trace).
Proof.
  induction trace as [|e trace IH]; intros s Hf; [now split|].
  cbn [App.feasible] in Hf. apply andb_prop in Hf. destruct Hf as [He Hf].
  rewrite app_run_cons. cbn [snd].
  rewrite app_sent_app, submitted_app, length_app.
  destruct (IH _ Hf) as [IHa IHb]. rewrite IHa, IHb. clear IH IHa IHb Hf.
  unfold App.step. rewrite He.
  destruct e as [| |event| |h g|h [| |data]|h [| |data]|rid d|rid];
    cbn [App.dispatch Trace.app_results map filter Trace.is_stopped];
    try (split; reflexivity).
  - unfold App.startBtn_onclick. destruct (App.started s); now split.
  - unfold App.stopBtn_onclick.
    destruct (App.mediaRecorder s); now split.
  - rewrite app_onresult_calls, app_transcript_of, guard_is_blank.
    destruct (negb (Trace.is_blank (concat (map Spec.best (Spec.in_range event)))));
      now split.
  - destruct g; now split.
Qed.

Lemma app_requests_follow_events_witness :
  App.feasible Samples.app_ready Samples.restart_before_analysis = true
  /\ length (App.submitted
               (snd (App.run Samples.app_ready Samples.restart_before_analysis)))
     = 2.
Proof.
  split; [reflexivity|].
  exact (proj2 (app_requests_follow_events Samples.restart_before_analysis
                  Samples.app_ready eq_refl)).
Defined.

(** ** Clicking again *)

Lemma script_stop_idle (s : Script.State) :
  Script.recognizing s = false ->
  Script.after (Script.step Script.StopClick s) = s.
Proof.
  intros H. unfold Script.step, Script.dispatch, Script.stopBtn_onclick. simpl.
  now rewrite H.
Qed.

Lemma app_stop_idle (s : App.State) :
  App.recording s = false -> App.after (App.step App.StopClick s) = s.
Proof.
  intros H. unfold App.step, App.dispatch, App.stopBtn_onclick. simpl.
  destruct (App.installed s); [|reflexivity].
  rewrite H. now destruct (App.mediaRecorder s).
Qed.

(** X9.  A second stop click right after a stop click changes nothing more,
    in both files. *)
Theorem stop_twice_is_stop_once :
  (forall s, Script.after (Script.step Script.StopClick
                             (Script.after (Script.step Script.StopClick s)))
             = Script.after (Script.step Script.StopClick s))
  /\ (forall s, App.after (App.step App.StopClick
                             (App.after (App.step App.StopClick s)))
                = App.after (App.step App.StopClick s)).
Proof.
  split; intros s.
  - assert (H : forall t, Script.after (Script.step Script.StopClick t)
                          = if Script.recognizing t
                            then match Script.recognition t with
                                 | Some _ => Script.set_recognizing false t
                                 | None => t
                                 end
                            else t).
    { intros t. unfold Script.step, Script.dispatch, Script.stopBtn_onclick.
      cbn [Script.enabled].
      destruct (Script.recognizing t); [|reflexivity].
      now destruct (Script.recognition t). }
    rewrite (H s).
    destruct (Script.recognizing s) eqn:E.
    + destruct (Script.recognition s) eqn:R; rewrite H.
      * reflexivity.
      * now rewrite E, R.
    + rewrite H. now rewrite E.
  - destruct (App.installed s) eqn:I.
    + apply app_stop_idle.
      unfold App.step, App.dispatch, App.stopBtn_onclick. cbn [App.enabled].
      rewrite I.
      destruct (App.mediaRecorder s) as [rid|] eqn:M; cbn [App.after].
      * destruct (App.recording s) eqn:R; [|exact R].
        unfold App.recording in *. simpl. rewrite M in *.
        destruct (nth_error (App.recorders s) rid) as [[| |]|] eqn:N;
          try discriminate R.
        rewrite update_nth_error; [reflexivity|].
        apply nth_error_Some. congruence.
      * unfold App.recording. now rewrite M.
    + unfold App.step. cbn [App.enabled]. rewrite I. cbn [App.idle App.after].
      now rewrite I.
Qed.

(** ** More on the audio clip *)

Lemma quiet_session_witness :
  let s := App.after (App.step App.StartClick Samples.app_ready) in
  App.installed s = true
  /\ App.lookup 1 s = Some App.PendingStream
  /\ App.submitted
       (snd (App.run s [App.StreamSettled 1 true;
                        App.DataAvailable 0 Samples.chunk_a;
                        App.StopClick;
                        App.DataAvailable 0 Samples.chunk_b;
                        App.RecorderStopped 0]))
     = [{| App.blobParts := [Samples.chunk_a; Samples.chunk_b];
           App.type := lit "audio/wav" |}].
Proof.
  intros s. split; [reflexivity|]. split; [reflexivity|].
  exact (proj2 (quiet_session s 1 [Samples.chunk_a] [Samples.chunk_b]
                  eq_refl eq_refl)).
Defined.

(** ** One recorder per recognition session *)

Lemma length_update (rid : nat) (r : App.RecorderState) (l : list App.RecorderState) :
  length (App.update rid r l) = length l.
Proof.
  revert rid. induction l as [|x l IH]; intros [|rid]; simpl; auto.
Qed.

Lemma streams_after_forget (h : nat) (l : list (nat * App.Pending)) :
  length (filter Trace.is_stream (filter (fun p => negb (fst p =? h)) l))
  <= length (filter Trace.is_stream l).
Proof.
  induction l as [|p l IH]; simpl; [lia|].
  destruct (negb (fst p =? h)); simpl; destruct (Trace.is_stream p); simpl; lia.
Qed.

Lemma stream_forgotten (h : nat) (l : list (nat * App.Pending)) :
  match find (fun p => fst p =? h) l with
  | Some p => Some (snd p)
  | None => None
  end = Some App.PendingStream ->
  S (length (filter Trace.is_stream (filter (fun p => negb (fst p =? h)) l)))
  <= length (filter Trace.is_stream l).
Proof.
  induction l as [|p l IH]; simpl; [discriminate|].
  destruct (fst p =? h) eqn:E; simpl.
  - intros H. injection H as H. unfold Trace.is_stream at 2. rewrite H. simpl.
    pose proof (streams_after_forget h l). lia.
  - intros H. specialize (IH H). destruct (Trace.is_stream p); simpl; lia.
Qed.

Lemma streams_after_issue (p : App.Pending) (s : App.State) :
  Trace.pending_streams (App.issue p s)
  = Trace.pending_streams s + (if Trace.is_stream (0, p) then 1 else 0).
Proof.
  unfold Trace.pending_streams, App.issue. simpl.
  rewrite filter_app, length_app. simpl.
  unfold Trace.is_stream. simpl. destruct p; simpl; lia.
Qed.

(** Streams asked for and recorders made: none before the engine is
    started, one at most after. *)
Lemma one_stream_step (e : App.Event) (s : App.State) :
  e <> App.RecognitionEnded ->
  Trace.pending_streams s + length (App.recorders s)
  <= (if App.started s then 1 else 0) ->
  Trace.pending_streams (App.after (App.step e s))
  + length (App.recorders (App.after (App.step e s)))
  <= (if App.started (App.after (App.step e s)) then 1 else 0).
Proof.
  intros Hne K. unfold App.step.
  destruct (App.enabled s e) eqn:He; [|exact K].
  destruct e as [| |event| |h g|h o|h o|rid d|rid]; cbn [App.dispatch].
  - unfold App.startBtn_onclick. destruct (App.started s) eqn:S; cbn [App.after].
    + now rewrite S.
    + rewrite streams_after_issue. simpl.
      unfold Trace.pending_streams in *. simpl. lia.
  - unfold App.stopBtn_onclick.
    destruct (App.mediaRecorder s); cbn [App.after]; [|exact K].
    destruct (App.recording s); [|exact K].
    unfold Trace.pending_streams in *. simpl. now rewrite length_update.
  - unfold App.onresult.
    destruct (0 <? length (trim (App.transcript_of event))); cbn [App.after].
    + rewrite streams_after_issue. simpl.
      unfold Trace.pending_streams in *. simpl. lia.
    + exact K.
  - congruence.
  - cbn [App.enabled] in He. unfold App.lookup in He.
    pose proof (stream_forgotten h (App.inflight s)) as F.
    destruct (match find (fun p => fst p =? h) (App.inflight s) with
              | Some p => Some (snd p) | None => None end) as [[| |]|];
      try discriminate He.
    specialize (F eq_refl).
    unfold App.stream_settled, Trace.pending_streams in *.
    destruct g; simpl in *; rewrite ?length_app; simpl; lia.
  - pose proof (streams_after_forget h (App.inflight s)).
    unfold Trace.pending_streams in *. destruct o; simpl; lia.
  - pose proof (streams_after_forget h (App.inflight s)).
    unfold Trace.pending_streams in *. destruct o; simpl; lia.
  - exact K.
  - unfold App.mediaRecorder_onstop. cbn [App.after].
    rewrite streams_after_issue. simpl.
    unfold Trace.pending_streams in *. simpl. rewrite length_update. lia.
Qed.

Lemma one_stream_run (trace : list App.Event) :
  forall s, ~ In App.RecognitionEnded trace ->
    Trace.pending_streams s + length (App.recorders s)
    <= (if App.started s then 1 else 0) ->
    length (App.recorders (fst (App.run s trace))) <= 1.
Proof.
  induction trace as [|e trace IH]; intros s Hn K.
  - simpl. destruct (App.started s); lia.
  - rewrite app_run_cons. cbn [fst]. apply IH.
    + intros H. apply Hn. now right.
    + apply one_stream_step; [|exact K]. intros ->. apply Hn. now left.
Qed.

(** X11.  In app.js, as long as the recognition engine has not ended, at
    most one MediaRecorder is made, however often start is clicked: a start
    click on a started engine stops at [recognition.start()], which throws,
    before the device is asked for. *)
Theorem one_recorder_until_engine_ends (page : App.Dom) (trace : list App.Event) :
  ~ In App.RecognitionEnded trace ->
  length (App.recorders (fst (App.run (App.after (App.load true page)) trace))) <= 1.
Proof.
  intros H. apply one_stream_run; [exact H|]. simpl. lia.
Qed.

Lemma one_recorder_until_engine_ends_witness :
  ~ In App.RecognitionEnded Samples.start_thrice
  /\ length (App.recorders
               (fst (App.run (App.after (App.load true Samples.app_page))
                             Samples.start_thrice))) <= 1.
Proof.
  assert (H : ~ In App.RecognitionEnded Samples.start_thrice).
  { simpl. intros [H|[H|[H|[H|[H|[]]]]]]; discriminate H. }
  split; [exact H|].
  exact (one_recorder_until_engine_ends Samples.app_page Samples.start_thrice H).
Defined.

(** ** The device is refused *)

(** X12.  In app.js, when the device is refused, nothing is written on the
    page and nothing is called; recognition goes on as before.  If no
    recorder was made before, the next stop click still calls
    [recognition.stop()], and then throws on [mediaRecorder.stop()], the state
    as it was. *)
Theorem device_refused (s : App.State) (h : nat) :
  App.enabled s (App.StreamSettled h false) = true ->
  App.installed s = true ->
  App.mediaRecorder s = None ->
  let r := App.step (App.StreamSettled h false) s in
  let r' := App.step App.StopClick (App.after r) in
  App.calls r = []
  /\ App.completion r = Throw Rejected
  /\ App.dom (App.after r) = App.dom s
  /\ App.started (App.after r) = App.started s
  /\ App.recorders (App.after r) = App.recorders s
  /\ App.calls r' = [App.RecognitionStop]
  /\ App.completion r' = Throw TypeError
  /\ App.after r' = App.after r.
Proof.
  intros He Hi Hm r r'.
  assert (Hr : r = {| App.after := App.forget h s; App.calls := [];
                      App.completion := Throw Rejected |}).
  { unfold r, App.step. now rewrite He. }
  assert (Hr' : r' = {| App.after := App.forget h s;
                        App.calls := [App.RecognitionStop];
                        App.completion := Throw TypeError |}).
  { unfold r'. rewrite Hr. cbn [App.after].
    unfold App.step, App.dispatch, App.stopBtn_onclick. cbn [App.enabled].
    change (App.installed (App.forget h s)) with (App.installed s).
    change (App.mediaRecorder (App.forget h s)) with (App.mediaRecorder s).
    now rewrite Hi, Hm. }
  rewrite Hr', Hr. repeat split.
Qed.

Lemma device_refused_witness :
  let s := App.after (App.step App.StartClick Samples.app_ready) in
  App.enabled s (App.StreamSettled 1 false) = true
  /\ App.installed s = true
  /\ App.mediaRecorder s = None
  /\ App.calls (App.step App.StopClick
                  (App.after (App.step (App.StreamSettled 1 false) s)))
     = [App.RecognitionStop].
Proof.
  intros s.
  pose proof (device_refused s 1 eq_refl eq_refl eq_refl)
    as (_ & _ & _ & _ & _ & H & _).
  repeat (split; [reflexivity|]). exact H.
Defined.

(** ** Starting again in script.js *)

(** X13.  In script.js, while [recognizing] is true: if the engine ends by
    itself, a start click does nothing, since there is no [onend] handler to
    clear the flag; a stop click followed by a start click restarts it.  And
    a start click right after a stop click, before the engine has ended,
    starts nothing: [recognition.start()] throws and the flag stays false. *)
Theorem restart_in_script (s : Script.State) :
  Script.recognizing s = true ->
  Script.started s = true ->
  Script.recognition s <> None ->
  Script.run s [Script.RecognitionEnded; Script.StartClick]
  = (Script.set_started false s, [])
  /\ Script.run s [Script.RecognitionEnded; Script.StopClick; Script.StartClick]
     = (s, [Script.RecognitionStop; Script.RecognitionStart])
  /\ Script.run s [Script.StopClick; Script.StartClick]
     = (Script.set_recognizing false s,
        [Script.RecognitionStop; Script.RecognitionStart]).
Proof.
  intros Hg Hs Hr. destruct s as [rec g d st inf n]. simpl in *. subst g st.
  destruct rec as [r|]; [|congruence].
  repeat split.
Qed.

Lemma restart_in_script_witness :
  let s := Script.after (Script.step Script.StartClick Samples.script_ready) in
  Script.recognizing s = true
  /\ Script.started s = true
  /\ Script.recognition s <> None
  /\ Script.run s [Script.RecognitionEnded; Script.StartClick]
     = (Script.set_started false s, []).
Proof.
  intros s.
  assert (H : Script.recognition s <> None) by discriminate.
  split; [reflexivity|]. split; [reflexivity|]. split; [exact H|].
  exact (proj1 (restart_in_script s eq_refl eq_refl H)).
Defined.

(** ** The audio clip, as a browser delivers it *)



















